(** * The NASS Quick Stats client ([nass-usda/api.py])

    A shallow embedding of the [USDAApi] class: the decoded JSON bodies it
    inspects, the exceptions it raises, the parameter dictionaries it
    mutates, and the decision procedure of [_handle_response_data] and
    [_raise_for_error_message].

    Conventions.
    - A Python [str] is a [string] whose characters are code points below
      256; the builtins below are those of CPython 3 on such strings.
    - A raised exception is the [Raise] outcome of the [result] monad;
      [try]/[except]/[else] is [try_except_else].
    - Dictionaries passed by reference live in a heap of locations, so that
      a mutation by the client is seen by every holder of the reference. *)

From Stdlib Require Import ZArith String Ascii List Bool Lia SpecFloat.
From stdpp Require Import base option gmap strings.
Import ListNotations.

Set Warnings "-register-all".
Local Open Scope Z_scope.
Local Open Scope string_scope.

(** ** Python values *)

(** What [resp.json()] can produce, and what a parameter dictionary holds.
    A [dict] keeps insertion order; its keys are unique. *)
Inductive value : Type :=
| PNone
| PBool (b : bool)
| PInt (n : Z)
| PFloat (f : spec_float)
| PStr (s : string)
| PList (l : list value)
| PDict (d : list (string * value)).

Abbreviation dict := (list (string * value)).

(** [requests.Response]: the status code and the outcome of decoding the
    body ([None] when the body is not JSON and [resp.json()] raises
    [ValueError]). *)
Record Response : Type := mkResponse {
  status_code : Z;
  json : option value
}.

(** ** Exceptions *)

Inductive builtin_error : Type :=
| KeyError | TypeError | IndexError | ValueError | AttributeError
| OverflowError.

(** Modelled from the spec: the package's [exceptions] module is not among
    the sources. Each class is a constructor that holds the arguments given
    where [api.py] raises it, which is all the spec says an error carries
    (the message or messages, the optional row limit, the decoded body, the
    raw response). *)
Inductive exn : Type :=
| Builtin (b : builtin_error)
| NetworkException
| InvalidJson (resp : Response)
| NassException (response : Response)
| UnexpectedResponseData (data : value) (response : Response)
| ExceptionList (errors : list value) (response : Response)
| Unauthorized (message : string) (response : Response)
| InvalidQuery (message : string) (response : Response)
| BadMediaType (message : string) (response : Response)
| ExceedsRowLimit (rows : option Z) (message : string) (response : Response)
| ApiException (message : string) (response : Response).

Inductive result (A : Type) : Type :=
| Return (a : A)
| Raise (e : exn).
Arguments Return {A} a.
Arguments Raise {A} e.

#[global] Instance result_ret : MRet result := fun A a => Return a.
#[global] Instance result_bind : MBind result := fun A B f m =>
  match m with
  | Return a => f a
  | Raise e => Raise e
  end.

Definition builtin_eqb (a b : builtin_error) : bool :=
  match a, b with
  | KeyError, KeyError | TypeError, TypeError | IndexError, IndexError
  | ValueError, ValueError | AttributeError, AttributeError
  | OverflowError, OverflowError => true
  | _, _ => false
  end.

(** [except (E1, E2, ...)]: does the clause catch [e]? *)
Definition catches (classes : list builtin_error) (e : exn) : bool :=
  match e with
  | Builtin b => existsb (builtin_eqb b) classes
  | _ => false
  end.

(** [try: body / except classes: handler / else: orelse]. An exception of
    [orelse] is not caught by the clause. *)
Definition try_except_else {A B : Type} (body : result A)
    (classes : list builtin_error) (handler : result B)
    (orelse : A → result B) : result B :=
  match body with
  | Return a => orelse a
  | Raise e => if catches classes e then handler else Raise e
  end.

Definition try_except {A : Type} (body : result A)
    (classes : list builtin_error) (handler : result A) : result A :=
  try_except_else body classes handler Return.

(** ** Builtins on strings, lists and dictionaries *)

Fixpoint dict_get (k : string) (d : dict) : option value :=
  match d with
  | [] => None
  | (k', v) :: d' => if String.eqb k k' then Some v else dict_get k d'
  end.

(** [d[k] = v] on an insertion-ordered dictionary: an existing key keeps its
    position, a new key goes last. *)
Fixpoint dict_set (k : string) (v : value) (d : dict) : dict :=
  match d with
  | [] => [(k, v)]
  | (k', v') :: d' =>
      if String.eqb k k' then (k', v) :: d' else (k', v') :: dict_set k v d'
  end.

(** [d.update(other)]. *)
Definition dict_update (other : dict) (d : dict) : dict :=
  fold_left (fun acc kv => dict_set kv.1 kv.2 acc) other d.

(** [data[k]] for a string [k]: only a mapping can be subscripted by a
    string; a missing key is [KeyError], any other type is [TypeError]. *)
Definition getitem (data : value) (k : string) : result value :=
  match data with
  | PDict d =>
      match dict_get k d with
      | Some v => Return v
      | None => Raise (Builtin KeyError)
      end
  | _ => Raise (Builtin TypeError)
  end.

(** [l[i]] on a list, for a non-negative index. *)
Definition list_index {A : Type} (l : list A) (i : nat) : result A :=
  match nth_error l i with
  | Some x => Return x
  | None => Raise (Builtin IndexError)
  end.

(** [s.startswith(p)]. *)
Definition startswith (s p : string) : bool := String.prefix p s.

(** [s.split(sep)] for a one-character separator: never empty. *)
Fixpoint str_split (sep : ascii) (s : string) : list string :=
  match s with
  | EmptyString => [EmptyString]
  | String c r =>
      if Ascii.eqb c sep then EmptyString :: str_split sep r
      else match str_split sep r with
           | h :: t => String c h :: t
           | [] => [String c EmptyString]
           end
  end.

(** *** [int(str)] *)

(** The characters [int] strips: [Py_ISSPACE] and, below 256, the two other
    Unicode spaces NEL and NBSP. *)
Definition is_space (c : ascii) : bool :=
  let n := N_of_ascii c in
  ((9 <=? n) && (n <=? 13) || (n =? 32) || (n =? 133) || (n =? 160))%N.

Definition digit_value (c : ascii) : option Z :=
  let n := N_of_ascii c in
  if ((48 <=? n) && (n <=? 57))%N then Some (Z.of_N n - 48) else None.

Fixpoint skip_spaces (s : string) : string :=
  match s with
  | String c r => if is_space c then skip_spaces r else s
  | EmptyString => s
  end.

(** The digit loop of [long_from_string_base]: digits with single
    underscores between them. Yields the value, the number of digits and
    the unread rest; fails on a doubled or a trailing underscore. *)
Fixpoint scan_digits (s : string) (prev_underscore : bool) (acc : Z)
    (digits : nat) : option (Z * nat * string) :=
  match s with
  | String c r =>
      match digit_value c with
      | Some d => scan_digits r false (10 * acc + d) (S digits)
      | None =>
          if Ascii.eqb c "_" then
            if prev_underscore then None else scan_digits r true acc digits
          else if prev_underscore then None else Some (acc, digits, s)
      end
  | EmptyString => if prev_underscore then None else Some (acc, digits, s)
  end.

Definition leading_underscore (s : string) : bool :=
  match s with
  | String c _ => Ascii.eqb c "_"
  | EmptyString => false
  end.

Section Interpreter.

(** [sys.get_int_max_str_digits()]: 4300 by default since CPython 3.11,
    [0] when the limit is off or the interpreter has none. *)
Variable int_max_str_digits : nat.

Definition exceeds_digit_limit (digits : nat) : bool :=
  (640 <? digits)%nat && (0 <? int_max_str_digits)%nat
  && (int_max_str_digits <? digits)%nat.

(** [int(s)] in base 10; [None] stands for [ValueError]. *)
Definition int_of_str (s : string) : option Z :=
  let s1 := skip_spaces s in
  let '(negative, s2) :=
    match s1 with
    | String c r =>
        if Ascii.eqb c "-" then (true, r)
        else if Ascii.eqb c "+" then (false, r)
        else (false, s1)
    | EmptyString => (false, s1)
    end in
  if leading_underscore s2 then None
  else match scan_digits s2 false 0 0 with
       | Some (n, digits, rest) =>
           if (digits =? 0)%nat then None
           else if exceeds_digit_limit digits then None
           else match skip_spaces rest with
                | EmptyString => Some (if negative then - n else n)
                | String _ _ => None
                end
       | None => None
       end.

(** [int(float)]: truncation toward zero. *)
Definition int_of_float (f : spec_float) : result Z :=
  match f with
  | S754_zero _ => Return 0
  | S754_infinity _ => Raise (Builtin OverflowError)
  | S754_nan => Raise (Builtin ValueError)
  | S754_finite s m e =>
      let magnitude :=
        match e with
        | Z.neg p => Z.pos m / 2 ^ Z.pos p
        | _ => Z.pos m * 2 ^ e
        end in
      Return (if s then - magnitude else magnitude)
  end.

(** [int(v)]. *)
Definition py_int (v : value) : result Z :=
  match v with
  | PStr s =>
      match int_of_str s with
      | Some n => Return n
      | None => Raise (Builtin ValueError)
      end
  | PInt n => Return n
  | PBool b => Return (if b then 1 else 0)
  | PFloat f => int_of_float f
  | PNone | PList _ | PDict _ => Raise (Builtin TypeError)
  end.

End Interpreter.

(** ** The client *)

Record USDAApi : Type := mkUSDAApi {
  key : string
}.

(** Modelled from the spec: the [Query] class ([query.py]) is not among the
    sources. [api.py] reads one attribute of it, [query.params], the
    accumulated parameter mapping; it is a reference to a dictionary. *)
Record Query : Type := mkQuery {
  params : positive
}.

(** What [self.http.get(api_url, params=params)] is given: the address and
    the mapping that is encoded as the query string. *)
Record Request : Type := mkRequest {
  url : string;
  query_string : dict
}.

(** The dictionaries reachable by reference, and the requests issued so
    far. *)
Record world : Type := mkWorld {
  heap : gmap positive dict;
  sent : list Request
}.

Definition BASE_URL : string := "https://quickstats.nass.usda.gov/api".

Definition error_classes : list (string * (string → Response → exn)) :=
  [ ("unauthorized", Unauthorized);
    ("bad request - invalid query", InvalidQuery);
    ("bad request - unsupported media type", BadMediaType) ].

(** [error_classes[message]] for a string. *)
Definition lookup_class (message : string)
    : option (string → Response → exn) :=
  snd <$> find (fun entry => String.eqb message entry.1) error_classes.

(** ** Sample inputs *)

Definition sample_api : USDAApi := mkUSDAApi "SECRET".
Definition sample_query : Query := mkQuery 1.

(** One Query whose mapping holds the filter [year = 2016]; nothing sent. *)
Definition sample_world : world :=
  mkWorld {[ 1%positive := [("year", PInt 2016)] ]} [].

(** A transport that answers every request with [response]. *)
Definition answers (response : Response)
    : list Request → Request → option Response :=
  fun _ _ => Some response.

Definition respond (status : Z) (body : value) : Response :=
  mkResponse status (Some body).

Definition unauthorized_body : value :=
  PDict [("error", PList [PStr "unauthorized"])].
Definition two_errors_body : value :=
  PDict [("error", PList [PStr "a"; PStr "b"])].
Definition count_body (count : value) : value := PDict [("count", count)].
Definition rows_body : value := PDict [("data", PList [])].

(** A transport that always fails. *)
Definition no_network : list Request → Request → option Response :=
  fun _ _ => None.

(** One Query with a filter that is itself called [key]. *)
Definition keyed_world : world :=
  mkWorld {[ 1%positive := [("key", PStr "mine"); ("year", PInt 2016)] ]} [].

Definition source_desc_body : value :=
  PDict [("source_desc", PList [PStr "CENSUS"; PStr "SURVEY"])].

Section Client.

Variable int_max_str_digits : nat.

(** The transport, [requests.Session.get]: from the requests issued before
    and the present one to the response, or [None] when it raises a
    [RequestException]. *)
Variable http_get : list Request → Request → option Response.

Definition _raise_for_error_message (errors : value) (response : Response)
    : result unit :=
  match errors with
  | PList errors =>
      if (1 <? length errors)%nat then
        Raise (ExceptionList errors response)
      else if (length errors =? 1)%nat then
        message ← list_index errors 0;
        match message with
        | PStr message =>
            match lookup_class message with
            | Some exc_class => Raise (exc_class message response)
            | None =>
                if startswith message "exceeds limit" then
                  rows ← try_except
                    (part ← list_index (str_split "=" message) 1;
                     n ← py_int int_max_str_digits (PStr part);
                     Return (Some n))
                    [IndexError; ValueError]
                    (Return None);
                  Raise (ExceedsRowLimit rows message response)
                else Raise (ApiException message response)
            end
        | PList _ | PDict _ =>
            (* [message in error_classes]: unhashable *)
            Raise (Builtin TypeError)
        | PNone | PBool _ | PInt _ | PFloat _ =>
            (* not a key of the table, and no [startswith] attribute *)
            Raise (Builtin AttributeError)
        end
      else Return ()
  | _ => Return ()
  end.

Definition _handle_response_data (data : value) (response : Response)
    (field_name : string) : result value :=
  try_except_else (getitem data "error") [KeyError; TypeError] (Return ())
    (fun errors =>
       errors' ← getitem data "error";
       _raise_for_error_message errors' response);;
  if negb (status_code response =? 200)%Z then
    Raise (NassException response)
  else
    result ← try_except (getitem data field_name) [KeyError; TypeError]
               (Raise (UnexpectedResponseData data response));
    Return result.

(** [params.update({'key': self.key})] on the dictionary that [params]
    refers to. *)
Definition add_key (self : USDAApi) (params : positive)
    (h : gmap positive dict) : gmap positive dict :=
  alter (dict_update [("key", PStr (key self))]) params h.

(** The request that goes out: the mapping is read after the update. *)
Definition outgoing (self : USDAApi) (url : string) (params : positive)
    (w : world) : Request :=
  {| url := BASE_URL +:+ url;
     query_string := default [] (add_key self params (heap w) !! params) |}.

Definition _api_request (self : USDAApi) (url : string) (params : positive)
    (field_name : string) (w : world) : result value * world :=
  let request := outgoing self url params w in
  let w' := {| heap := add_key self params (heap w);
               sent := (sent w ++ [request])%list |} in
  match http_get (sent w) request with
  | None => (Raise NetworkException, w')
  | Some resp =>
      match json resp with
      | None => (Raise (InvalidJson resp), w')
      | Some data => (_handle_response_data data resp field_name, w')
      end
  end.

(** [{'param': param}] is a new dictionary, at a location not in use. *)
Definition param_values (self : USDAApi) (param : string) (w : world)
    : result value * world :=
  let l := fresh (dom (heap w)) in
  let w1 := {| heap := <[l := [("param", PStr param)]]> (heap w);
               sent := sent w |} in
  _api_request self "/get_param_values/" l param w1.

Definition count_query (self : USDAApi) (query : Query) (w : world)
    : result Z * world :=
  let '(count, w') := _api_request self "/get_counts/" (params query)
                        "count" w in
  (count ≫= py_int int_max_str_digits, w').

Definition call_query (self : USDAApi) (query : Query) (w : world)
    : result value * world :=
  _api_request self "/api_GET/" (params query) "data" w.

(** ** The claims' vocabulary *)

(** Is [data] a mapping that has the key [k]? *)
Definition has_key (data : value) (k : string) : bool :=
  match data with
  | PDict d => match dict_get k d with Some _ => true | None => false end
  | _ => false
  end.

(** The part of [s] after the first [c], if [c] occurs. *)
Fixpoint after_first (c : ascii) (s : string) : option string :=
  match s with
  | EmptyString => None
  | String a r => if Ascii.eqb a c then Some r else after_first c r
  end.

(** The part of [s] before the first [c], all of [s] if [c] does not
    occur. *)
Fixpoint before_first (c : ascii) (s : string) : string :=
  match s with
  | EmptyString => EmptyString
  | String a r =>
      if Ascii.eqb a c then EmptyString else String a (before_first c r)
  end.

(** The response an exception of the package holds, if it holds one. *)
Definition exn_response (e : exn) : option Response :=
  match e with
  | Builtin _ | NetworkException => None
  | InvalidJson r | NassException r | UnexpectedResponseData _ r
  | ExceptionList _ r | Unauthorized _ r | InvalidQuery _ r
  | BadMediaType _ r | ExceedsRowLimit _ _ r | ApiException _ r => Some r
  end.

(** Is every character of [s] one of [0] to [9]? *)
Fixpoint all_digits (s : string) : bool :=
  match s with
  | EmptyString => true
  | String c r =>
      match digit_value c with
      | Some _ => all_digits r
      | None => false
      end
  end.

(** The number that the digits of [s] write in base ten, after the digits
    already read into [acc]. *)
Fixpoint decimal_value (s : string) (acc : Z) : Z :=
  match s with
  | EmptyString => acc
  | String c r =>
      match digit_value c with
      | Some d => decimal_value r (10 * acc + d)
      | None => acc
      end
  end.

(** Steps c to e for a mapping: the status check, then the field. *)
Definition status_then_field (d : dict) (response : Response)
    (field_name : string) : result value :=
  if negb (status_code response =? 200)%Z then
    Raise (NassException response)
  else match dict_get field_name d with
       | Some v => Return v
       | None => Raise (UnexpectedResponseData (PDict d) response)
       end.

(** ** Lemmas on the builtins *)

Lemma dict_get_set_eq (k : string) (v : value) (d : dict) :
  dict_get k (dict_set k v d) = Some v.
Proof.
  induction d as [|[k' v'] d IH]; simpl.
  - by rewrite String.eqb_refl.
  - destruct (String.eqb k k') eqn:E; simpl; rewrite E; [done | exact IH].
Qed.

Lemma dict_get_set_ne (k k' : string) (v : value) (d : dict) :
  k ≠ k' → dict_get k' (dict_set k v d) = dict_get k' d.
Proof.
  intros Hne. induction d as [|[k0 v0] d IH]; simpl.
  - destruct (String.eqb k' k) eqn:E; [|done].
    apply String.eqb_eq in E. congruence.
  - destruct (String.eqb k k0) eqn:E; simpl; [|by rewrite IH].
    apply String.eqb_eq in E. subst k0.
    destruct (String.eqb k' k) eqn:E'; [|done].
    apply String.eqb_eq in E'. congruence.
Qed.

Lemma str_split_head (c : ascii) (s : string) :
  ∃ t, str_split c s = before_first c s :: t.
Proof.
  induction s as [|a r [t IH]]; simpl; [by eexists|].
  destruct (Ascii.eqb a c); [by eexists|]. rewrite IH. by eexists.
Qed.

(** The second piece of [s.split(c)] is what lies between the first [c] and
    the next one; there is none when [c] does not occur. *)
Lemma str_split_second (c : ascii) (s : string) :
  nth_error (str_split c s) 1 = before_first c <$> after_first c s.
Proof.
  induction s as [|a r IH]; simpl; [done|].
  destruct (Ascii.eqb a c).
  - destruct (str_split_head c r) as [t ->]. done.
  - destruct (str_split_head c r) as [t Ht]. rewrite Ht in IH |- *. exact IH.
Qed.

(** No key of the table starts with ["exceeds limit"]. *)
Lemma lookup_class_exceeds_limit (message : string) :
  startswith message "exceeds limit" = true → lookup_class message = None.
Proof.
  unfold lookup_class, error_classes. simpl. intros Hp.
  repeat match goal with
  | |- context [String.eqb message ?k] =>
      let E := fresh "E" in
      destruct (String.eqb message k) eqn:E;
      [apply String.eqb_eq in E; subst message; discriminate Hp|]
  end.
  done.
Qed.

(** ** Lemmas on the decision procedure *)

(** Steps c to e of the procedure: the status check, then the field. *)
Lemma handle_without_error_key (data : value) (response : Response)
    (field_name : string) :
  has_key data "error" = false →
  _handle_response_data data response field_name =
    if negb (status_code response =? 200)%Z then
      Raise (NassException response)
    else match getitem data field_name with
         | Return v => Return v
         | Raise _ => Raise (UnexpectedResponseData data response)
         end.
Proof.
  intros Hk. unfold _handle_response_data.
  assert (Herr : ∃ b, getitem data "error" = Raise (Builtin b)
                      ∧ (b = KeyError ∨ b = TypeError)).
  { destruct data; simpl in *; eauto.
    destruct (dict_get "error" d); [discriminate | eauto]. }
  destruct Herr as (b & -> & Hb).
  destruct Hb as [-> | ->]; simpl; (destruct (negb _); [done|]);
    destruct data; simpl; try done; destruct (dict_get field_name d); done.
Qed.

(** With an [error] key, its translation comes first. *)
Lemma handle_with_error_key (d : dict) (errors : value)
    (response : Response) (field_name : string) :
  dict_get "error" d = Some errors →
  _handle_response_data (PDict d) response field_name =
    match _raise_for_error_message errors response with
    | Raise e => Raise e
    | Return _ =>
        if negb (status_code response =? 200)%Z then
          Raise (NassException response)
        else match dict_get field_name d with
             | Some v => Return v
             | None => Raise (UnexpectedResponseData (PDict d) response)
             end
    end.
Proof.
  intros Hd. unfold _handle_response_data. simpl. rewrite Hd. simpl.
  destruct (_raise_for_error_message errors response); simpl; [|done].
  destruct (negb _); [done|].
  unfold try_except, try_except_else.
  destruct (dict_get field_name d); done.
Qed.

(** ** Lemmas on the request *)

Lemma add_key_lookup (self : USDAApi) (l : positive)
    (h : gmap positive dict) (d : dict) :
  h !! l = Some d →
  add_key self l h !! l = Some (dict_set "key" (PStr (key self)) d).
Proof. intros Hl. unfold add_key. by rewrite lookup_alter_eq, Hl. Qed.

Lemma add_key_lookup_ne (self : USDAApi) (l l' : positive)
    (h : gmap positive dict) :
  l' ≠ l → add_key self l h !! l' = h !! l'.
Proof. intros Hne. unfold add_key. by rewrite lookup_alter_ne. Qed.

(** Whatever the response, the update of the dictionary stays and one
    request is on record. *)
Lemma api_request_world (self : USDAApi) (address : string) (l : positive)
    (field_name : string) (w : world) :
  (_api_request self address l field_name w).2 =
    {| heap := add_key self l (heap w);
       sent := (sent w ++ [outgoing self address l w])%list |}.
Proof.
  unfold _api_request.
  destruct (http_get _ _) as [resp|]; [destruct (json resp)|]; done.
Qed.

(** A decoded response is handed to the decision procedure. *)
Lemma api_request_decoded (self : USDAApi) (address : string) (l : positive)
    (field_name : string) (w : world) (response : Response) (data : value) :
  http_get (sent w) (outgoing self address l w) = Some response →
  json response = Some data →
  (_api_request self address l field_name w).1 =
    _handle_response_data data response field_name.
Proof. intros Hr Hj. unfold _api_request. by rewrite Hr, Hj. Qed.

(** [count_query] on a status-200 body with no [error] key and a [count]
    field: the result is [int] of that field. *)
Lemma count_query_converts (self : USDAApi) (query : Query) (w : world)
    (response : Response) (d : dict) (v : value) :
  http_get (sent w) (outgoing self "/get_counts/" (params query) w)
    = Some response →
  json response = Some (PDict d) →
  status_code response = 200 →
  dict_get "error" d = None →
  dict_get "count" d = Some v →
  (count_query self query w).1 = py_int int_max_str_digits v.
Proof.
  intros Hr Hj Hs He Hc. unfold count_query.
  pose proof (api_request_decoded self "/get_counts/" (params query)
                "count" w response (PDict d) Hr Hj) as Hreq.
  destruct (_api_request _ _ _ _ _) as [count w']. simpl in *. subst count.
  rewrite handle_without_error_key by (simpl; by rewrite He).
  rewrite Hs. simpl. by rewrite Hc.
Qed.

(** ** The claims *)

(** C1. When the decoded body is a mapping with an [error] key, the
    translation of that value comes before the status check: whatever it
    raises is what the client raises, for every status code. For the body
    [{"error": ["unauthorized"]}] the client raises [Unauthorized], not the
    generic non-200 error. *)
Theorem error_translation_precedes_status_check (d : dict) (errors : value)
    (response : Response) (field_name : string) :
  dict_get "error" d = Some errors →
  (∀ e, _raise_for_error_message errors response = Raise e →
        _handle_response_data (PDict d) response field_name = Raise e)
  ∧ (errors = PList [PStr "unauthorized"] →
     _handle_response_data (PDict d) response field_name
       = Raise (Unauthorized "unauthorized" response)
     ∧ _handle_response_data (PDict d) response field_name
       ≠ Raise (NassException response)).
Proof.
  intros Hd. rewrite (handle_with_error_key _ _ _ _ Hd). split.
  - by intros e ->.
  - intros ->. simpl. split; [reflexivity | discriminate].
Qed.

(** C2, as amended. For an error list of one message that starts with
    ["exceeds limit"], the client raises [ExceedsRowLimit] whose limit is
    the integer parsed from the part of the message between the first [=]
    and the next [=] (or the end of the message); the limit is absent when
    the message has no [=] or that part does not parse. *)
Theorem row_limit_parsed_from_second_piece (d : dict) (message : string)
    (response : Response) (field_name : string) :
  dict_get "error" d = Some (PList [PStr message]) →
  startswith message "exceeds limit" = true →
  _handle_response_data (PDict d) response field_name =
    Raise (ExceedsRowLimit
             (after_first "=" message ≫= λ piece,
                int_of_str int_max_str_digits (before_first "=" piece))
             message response).
Proof.
  intros Hd Hp. rewrite (handle_with_error_key _ _ _ _ Hd).
  unfold _raise_for_error_message. simpl.
  rewrite (lookup_class_exceeds_limit _ Hp), Hp.
  unfold list_index. rewrite str_split_second.
  destruct (after_first "=" message) as [piece|]; simpl; [|done].
  destruct (int_of_str _ _); done.
Qed.

(** C4. For an error list of one message, the client raises the class the
    table gives for exactly that message and, for a message that is not in
    the table and does not start with ["exceeds limit"], [ApiException]
    with the message. *)
Theorem single_message_dispatch (d : dict) (message : string)
    (response : Response) (field_name : string) :
  dict_get "error" d = Some (PList [PStr message]) →
  (message = "unauthorized" →
     _handle_response_data (PDict d) response field_name
       = Raise (Unauthorized message response))
  ∧ (message = "bad request - invalid query" →
     _handle_response_data (PDict d) response field_name
       = Raise (InvalidQuery message response))
  ∧ (message = "bad request - unsupported media type" →
     _handle_response_data (PDict d) response field_name
       = Raise (BadMediaType message response))
  ∧ (message ≠ "unauthorized" →
     message ≠ "bad request - invalid query" →
     message ≠ "bad request - unsupported media type" →
     startswith message "exceeds limit" = false →
     _handle_response_data (PDict d) response field_name
       = Raise (ApiException message response)).
Proof.
  intros Hd. rewrite (handle_with_error_key _ _ _ _ Hd).
  repeat split.
  - by intros ->.
  - by intros ->.
  - by intros ->.
  - intros H1 H2 H3 Hp. unfold _raise_for_error_message. simpl.
    unfold lookup_class, error_classes. simpl.
    apply String.eqb_neq in H1, H2, H3. rewrite H1, H2, H3. simpl.
    by rewrite Hp.
Qed.

(** C5. For an error list of more than one entry, the client raises
    [ExceptionList] with the whole list, in its order. *)
Theorem several_errors_raise_exception_list (d : dict)
    (errors : list value) (response : Response) (field_name : string) :
  dict_get "error" d = Some (PList errors) →
  (1 < length errors)%nat →
  _handle_response_data (PDict d) response field_name
    = Raise (ExceptionList errors response).
Proof.
  intros Hd Hlen. rewrite (handle_with_error_key _ _ _ _ Hd).
  unfold _raise_for_error_message.
  by destruct (Nat.ltb_spec 1 (length errors)); [|lia].
Qed.

(** C6. For a decoded body with no [error] key (a mapping without it, or
    not a mapping): with a status other than 200 the client raises
    [NassException], never [UnexpectedResponseData]; with status 200 and
    the field missing (or the body not a mapping) it raises
    [UnexpectedResponseData] with the decoded body and the response. *)
Theorem no_error_key_status_then_field (data : value)
    (response : Response) (field_name : string) :
  has_key data "error" = false →
  (status_code response ≠ 200 →
     _handle_response_data data response field_name
       = Raise (NassException response)
     ∧ ∀ data' response',
         _handle_response_data data response field_name
           ≠ Raise (UnexpectedResponseData data' response'))
  ∧ (status_code response = 200 →
     has_key data field_name = false →
     _handle_response_data data response field_name
       = Raise (UnexpectedResponseData data response)).
Proof.
  intros Hk. rewrite (handle_without_error_key _ _ _ Hk). split.
  - intros Hs. apply Z.eqb_neq in Hs. rewrite Hs. simpl.
    split; [reflexivity | discriminate].
  - intros -> Hf. simpl.
    destruct data; simpl in *; try done.
    destruct (dict_get field_name d); [discriminate | done].
Qed.

(** C8. When [error] maps to an empty list the translation raises nothing
    and the status check follows: a status other than 200 raises
    [NassException], and status 200 with the field present returns the
    field's value. *)
Theorem empty_error_list_falls_through (d : dict) (response : Response)
    (field_name : string) :
  dict_get "error" d = Some (PList []) →
  _raise_for_error_message (PList []) response = Return ()
  ∧ (status_code response ≠ 200 →
     _handle_response_data (PDict d) response field_name
       = Raise (NassException response))
  ∧ (∀ v, status_code response = 200 →
          dict_get field_name d = Some v →
          _handle_response_data (PDict d) response field_name = Return v).
Proof.
  intros Hd. rewrite (handle_with_error_key _ _ _ _ Hd). simpl.
  split; [done|]. split.
  - intros Hs. apply Z.eqb_neq in Hs. by rewrite Hs.
  - intros v -> Hv. simpl. by rewrite Hv.
Qed.

(** C9. When [error] maps to a value that is not a list the translation
    raises nothing and the status and field steps follow: status 200 with
    the field present returns the field's value. *)
Theorem non_list_error_value_is_ignored (d : dict) (errors : value)
    (response : Response) (field_name : string) :
  dict_get "error" d = Some errors →
  (∀ l, errors ≠ PList l) →
  _raise_for_error_message errors response = Return ()
  ∧ (status_code response ≠ 200 →
     _handle_response_data (PDict d) response field_name
       = Raise (NassException response))
  ∧ (∀ v, status_code response = 200 →
          dict_get field_name d = Some v →
          _handle_response_data (PDict d) response field_name = Return v).
Proof.
  intros Hd Hnl. rewrite (handle_with_error_key _ _ _ _ Hd).
  assert (Hr : _raise_for_error_message errors response = Return ()).
  { destruct errors; try done. by destruct (Hnl l). }
  rewrite Hr. split; [done|]. split.
  - intros Hs. apply Z.eqb_neq in Hs. by rewrite Hs.
  - intros v -> Hv. simpl. by rewrite Hv.
Qed.

(** C3, as amended. [call_query] and [count_query] attach the credential
    to the outgoing query string by storing it, under ["key"], in the
    parameter mapping they are given: after a send the Query's mapping
    holds the credential, its other entries are as before, every other
    dictionary is untouched, and the request that went out carries that
    same mapping. *)
Theorem send_stores_key_in_params (self : USDAApi) (query : Query)
    (w : world) (d : dict) :
  heap w !! params query = Some d →
  (dict_get "key" (dict_set "key" (PStr (key self)) d)
     = Some (PStr (key self))
   ∧ ∀ k, k ≠ "key" →
       dict_get k (dict_set "key" (PStr (key self)) d) = dict_get k d)
  ∧ ∀ w', w' = (call_query self query w).2
          ∨ w' = (count_query self query w).2 →
      heap w' !! params query
        = Some (dict_set "key" (PStr (key self)) d)
      ∧ (∀ l, l ≠ params query → heap w' !! l = heap w !! l)
      ∧ ∃ address,
          sent w' = (sent w ++
            [mkRequest address (dict_set "key" (PStr (key self)) d)])%list.
Proof.
  intros Hl. split.
  - split; [apply dict_get_set_eq|].
    intros k Hk. apply dict_get_set_ne. congruence.
  - intros w' Hw'.
    assert (Hw : ∃ address field_name,
               w' = (_api_request self address (params query)
                       field_name w).2).
    { destruct Hw' as [-> | ->]; [by do 2 eexists|].
      unfold count_query.
      exists "/get_counts/", "count".
      by destruct (_api_request _ _ _ _ _). }
    destruct Hw as (address & field_name & ->).
    rewrite api_request_world. simpl. split; [|split].
    + by apply add_key_lookup.
    + intros l Hne. by apply add_key_lookup_ne.
    + exists (BASE_URL +:+ address). unfold outgoing.
      by rewrite (add_key_lookup _ _ _ _ Hl).
Qed.

(** C7. A count request answered with status 200, no [error] key and a
    [count] field returns an integer: the value parsed from the field when
    it is a string, the field itself when it is already an integer. *)
Theorem count_query_returns_integer (self : USDAApi) (query : Query)
    (w : world) (response : Response) (d : dict) :
  http_get (sent w) (outgoing self "/get_counts/" (params query) w)
    = Some response →
  json response = Some (PDict d) →
  status_code response = 200 →
  dict_get "error" d = None →
  (∀ s n, dict_get "count" d = Some (PStr s) →
          int_of_str int_max_str_digits s = Some n →
          (count_query self query w).1 = Return n)
  ∧ (∀ n, dict_get "count" d = Some (PInt n) →
          (count_query self query w).1 = Return n).
Proof.
  intros Hr Hj Hs He. split.
  - intros s n Hc Hn.
    rewrite (count_query_converts _ _ _ _ _ _ Hr Hj Hs He Hc). simpl.
    by rewrite Hn.
  - intros n Hc.
    by rewrite (count_query_converts _ _ _ _ _ _ Hr Hj Hs He Hc).
Qed.

(** C10, as amended. When a count request is answered with status 200, no
    [error] key and a [count] field that [int] cannot convert,
    [count_query] raises the builtin error of the conversion, never an
    error of the package: [ValueError] for a string that is not an integer
    literal and for NaN, [TypeError] for null, a list or a mapping,
    [OverflowError] for an infinite float. *)
Theorem count_query_conversion_error (self : USDAApi) (query : Query)
    (w : world) (response : Response) (d : dict) (v : value) :
  http_get (sent w) (outgoing self "/get_counts/" (params query) w)
    = Some response →
  json response = Some (PDict d) →
  status_code response = 200 →
  dict_get "error" d = None →
  dict_get "count" d = Some v →
  (∀ e, py_int int_max_str_digits v = Raise e →
        (count_query self query w).1 = Raise e ∧ ∃ b, e = Builtin b)
  ∧ (∀ s, v = PStr s → int_of_str int_max_str_digits s = None →
          (count_query self query w).1 = Raise (Builtin ValueError))
  ∧ (v = PFloat S754_nan →
     (count_query self query w).1 = Raise (Builtin ValueError))
  ∧ (v = PNone ∨ (∃ l, v = PList l) ∨ (∃ m, v = PDict m) →
     (count_query self query w).1 = Raise (Builtin TypeError))
  ∧ (∀ sign, v = PFloat (S754_infinity sign) →
     (count_query self query w).1 = Raise (Builtin OverflowError)).
Proof.
  intros Hr Hj Hs He Hc.
  rewrite (count_query_converts _ _ _ _ _ _ Hr Hj Hs He Hc).
  split; [|split; [|split; [|split]]].
  - intros e He'. split; [done|].
    destruct v as [| b | n | f | s | l | m]; simpl in He'.
    + injection He' as <-. by eexists.
    + discriminate.
    + discriminate.
    + destruct f; simpl in He'; try discriminate;
        injection He' as <-; by eexists.
    + destruct (int_of_str _ _); [discriminate|].
      injection He' as <-. by eexists.
    + injection He' as <-. by eexists.
    + injection He' as <-. by eexists.
  - intros s -> Hn. simpl. by rewrite Hn.
  - by intros ->.
  - intros [-> | [[l ->] | [m ->]]]; done.
  - by intros sign ->.
Qed.

(** ** The translation and the decision procedure, case by case *)

(** One message that is a string: the table, then the prefix, then the
    generic error. *)
Lemma raise_for_single_string (message : string) (response : Response) :
  _raise_for_error_message (PList [PStr message]) response =
    match lookup_class message with
    | Some exc_class => Raise (exc_class message response)
    | None =>
        if startswith message "exceeds limit" then
          Raise (ExceedsRowLimit
                   (after_first "=" message ≫= λ piece,
                      int_of_str int_max_str_digits (before_first "=" piece))
                   message response)
        else Raise (ApiException message response)
    end.
Proof.
  unfold _raise_for_error_message. simpl.
  destruct (lookup_class message); [done|].
  destruct (startswith message "exceeds limit"); [|done].
  unfold list_index. rewrite str_split_second.
  destruct (after_first "=" message) as [piece|]; simpl; [|done].
  destruct (int_of_str _ _); done.
Qed.

Lemma lookup_class_cases (message : string)
    (exc_class : string → Response → exn) :
  lookup_class message = Some exc_class →
  exc_class = Unauthorized ∨ exc_class = InvalidQuery
  ∨ exc_class = BadMediaType.
Proof.
  unfold lookup_class, error_classes. simpl.
  repeat match goal with
  | |- context [String.eqb message ?k] => destruct (String.eqb message k)
  end; simpl; intros [= <-]; auto.
Qed.

(** What the translation of an [error] value can do: pass (no list, or an
    empty one), raise an exception of the package that holds the response,
    or fail on a single entry that is not a string. *)
Lemma translation_outcome (errors : value) (response : Response) :
  (_raise_for_error_message errors response = Return ()
   ∧ (errors = PList [] ∨ ∀ l, errors ≠ PList l))
  ∨ (∃ e x l, _raise_for_error_message errors response = Raise e
              ∧ exn_response e = Some response
              ∧ errors = PList (x :: l))
  ∨ (∃ x b, _raise_for_error_message errors response = Raise (Builtin b)
            ∧ errors = PList [x]
            ∧ (∀ s, x ≠ PStr s)
            ∧ (b = TypeError ∨ b = AttributeError)).
Proof.
  destruct errors as [| | | | | l |];
    try (left; split; [reflexivity | right; intros l'; discriminate]).
  destruct l as [|x [|y l]].
  - left. split; [reflexivity | by left].
  - destruct x as [| | | | message | |];
      try (right; right; do 2 eexists;
           split; [reflexivity|]; split; [reflexivity|];
           split; [intros s'; discriminate | auto]).
    right; left. rewrite raise_for_single_string.
    destruct (lookup_class message) as [exc_class|] eqn:Hc.
    + destruct (lookup_class_cases _ _ Hc) as [-> | [-> | ->]];
        by do 3 eexists.
    + destruct (startswith message "exceeds limit"); by do 3 eexists.
  - right; left. by do 3 eexists.
Qed.

Lemma status_then_field_returns_iff (d : dict) (response : Response)
    (field_name : string) (v : value) :
  status_then_field d response field_name = Return v
  ↔ status_code response = 200 ∧ dict_get field_name d = Some v.
Proof.
  unfold status_then_field.
  destruct (Z.eqb_spec (status_code response) 200) as [Hs | Hs]; simpl.
  - destruct (dict_get field_name d) as [v'|]; split.
    + by intros [= ->].
    + by intros [_ [= ->]].
    + discriminate.
    + by intros [_ [=]].
  - split; [discriminate | by intros [? _]].
Qed.

Lemma status_then_field_outcome (d : dict) (response : Response)
    (field_name : string) :
  (∃ v, status_then_field d response field_name = Return v)
  ∨ (∃ e, status_then_field d response field_name = Raise e
          ∧ exn_response e = Some response).
Proof.
  unfold status_then_field. destruct (negb _); [right; by eexists|].
  destruct (dict_get field_name d); [left | right]; by eexists.
Qed.

Lemma handle_mapping_with_error_key (d : dict) (errors : value)
    (response : Response) (field_name : string) :
  dict_get "error" d = Some errors →
  _handle_response_data (PDict d) response field_name =
    match _raise_for_error_message errors response with
    | Raise e => Raise e
    | Return _ => status_then_field d response field_name
    end.
Proof. apply handle_with_error_key. Qed.

Lemma handle_mapping_without_error_key (d : dict) (response : Response)
    (field_name : string) :
  dict_get "error" d = None →
  _handle_response_data (PDict d) response field_name
    = status_then_field d response field_name.
Proof.
  intros Hd. rewrite handle_without_error_key by (simpl; by rewrite Hd).
  unfold status_then_field. simpl.
  destruct (negb _); [done|]. by destruct (dict_get field_name d).
Qed.

(** A body that is not a mapping is never returned from. *)
Lemma handle_non_mapping (data : value) (response : Response)
    (field_name : string) :
  (∀ d, data ≠ PDict d) →
  _handle_response_data data response field_name =
    if negb (status_code response =? 200)%Z then
      Raise (NassException response)
    else Raise (UnexpectedResponseData data response).
Proof.
  intros Hn. rewrite handle_without_error_key.
  - destruct (negb _); [done|].
    destruct data; try done. by destruct (Hn d).
  - destruct data; try done. by destruct (Hn d).
Qed.

Lemma mapping_or_not (data : value) :
  (∃ d, data = PDict d) ∨ (∀ d, data ≠ PDict d).
Proof. destruct data; eauto; right; intros d'; discriminate. Qed.

(** What the decision procedure can do: return, raise an exception of the
    package that holds the response, or fail on a single [error] entry that
    is not a string. *)
Lemma handle_outcome (data : value) (response : Response)
    (field_name : string) :
  (∃ v, _handle_response_data data response field_name = Return v)
  ∨ (∃ e, _handle_response_data data response field_name = Raise e
          ∧ exn_response e = Some response)
  ∨ (∃ d x b,
       _handle_response_data data response field_name = Raise (Builtin b)
       ∧ data = PDict d
       ∧ dict_get "error" d = Some (PList [x])
       ∧ (∀ s, x ≠ PStr s)
       ∧ (b = TypeError ∨ b = AttributeError)).
Proof.
  destruct (mapping_or_not data) as [[d ->] | Hn].
  - destruct (dict_get "error" d) as [errors|] eqn:Hd.
    + rewrite (handle_mapping_with_error_key _ _ _ _ Hd).
      destruct (translation_outcome errors response)
        as [[-> _] | [(e & x & l & -> & He & _)
                     | (x & b & -> & -> & Hx & Hb)]].
      * destruct (status_then_field_outcome d response field_name)
          as [H | H]; [left; exact H | right; left; exact H].
      * right; left. by eexists.
      * right; right. by exists d, x, b.
    + rewrite (handle_mapping_without_error_key _ _ _ Hd).
      destruct (status_then_field_outcome d response field_name)
        as [H | H]; [left; exact H | right; left; exact H].
  - rewrite (handle_non_mapping _ _ _ Hn). right; left.
    destruct (negb _); by eexists.
Qed.

Lemma handle_returns_exactly_when (data : value)
    (response : Response) (field_name : string) (v : value) :
  _handle_response_data data response field_name = Return v
  ↔ status_code response = 200
    ∧ ∃ d, data = PDict d
           ∧ dict_get field_name d = Some v
           ∧ ∀ errors, dict_get "error" d = Some errors →
                       errors = PList [] ∨ ∀ l, errors ≠ PList l.
Proof.
  destruct (mapping_or_not data) as [[d ->] | Hn].
  - destruct (dict_get "error" d) as [errors|] eqn:Hd.
    + rewrite (handle_mapping_with_error_key _ _ _ _ Hd).
      destruct (translation_outcome errors response)
        as [[Hr Hc] | [(e & x & l & Hr & _ & ->) | (x & b & Hr & -> & _)]];
        rewrite Hr.
      * rewrite status_then_field_returns_iff. split.
        -- intros [Hs Hf]. split; [done|]. exists d.
           repeat split; [done|]. intros errors' He.
           assert (errors' = errors) as -> by congruence. done.
        -- intros (Hs & d' & [= <-] & Hf & _). done.
      * split; [discriminate|].
        intros (_ & d' & [= <-] & _ & H).
        destruct (H _ Hd) as [[=] | H']. by destruct (H' (x :: l)).
      * split; [discriminate|].
        intros (_ & d' & [= <-] & _ & H).
        destruct (H _ Hd) as [[=] | H']. by destruct (H' [x]).
    + rewrite (handle_mapping_without_error_key _ _ _ Hd).
      rewrite status_then_field_returns_iff. split.
      * intros [Hs Hf]. split; [done|]. exists d.
        repeat split; [done|]. intros errors He. congruence.
      * intros (Hs & d' & [= <-] & Hf & _). done.
  - rewrite (handle_non_mapping _ _ _ Hn). split.
    + destruct (negb _); discriminate.
    + intros (_ & d & -> & _). by destruct (Hn d).
Qed.

(** ** Further properties of the code *)

(** X1. The translation of an [error] value returns normally exactly when
    the value is not a list or is the empty list: a list with at least one
    entry always ends in an exception. *)
Theorem translation_passes_iff (errors : value) (response : Response) :
  _raise_for_error_message errors response = Return ()
  ↔ (errors = PList [] ∨ ∀ l, errors ≠ PList l).
Proof.
  destruct (translation_outcome errors response)
    as [[Hr Hc] | [(e & x & l & Hr & _ & ->) | (x & b & Hr & -> & _)]];
    rewrite Hr; split; try done.
  - intros [[=] | H]. by destruct (H (x :: l)).
  - intros [[=] | H]. by destruct (H [x]).
Qed.

(** X2. The decision procedure returns a value exactly when the status is
    200, the body is a mapping that holds the field, and the body has no
    [error] key or one whose value is an empty list or not a list; the
    value returned is the field's. *)
Theorem handle_response_data_returns_iff (data : value)
    (response : Response) (field_name : string) (v : value) :
  _handle_response_data data response field_name = Return v
  ↔ status_code response = 200
    ∧ ∃ d, data = PDict d
           ∧ dict_get field_name d = Some v
           ∧ ∀ errors, dict_get "error" d = Some errors →
                       errors = PList [] ∨ ∀ l, errors ≠ PList l.
Proof. apply handle_returns_exactly_when. Qed.

(** X3. A builtin error leaves the decision procedure only when the body
    is a mapping whose [error] value is a list of one entry that is not a
    string: [TypeError] or [AttributeError], raised inside the [else]
    branch and so not caught. *)
Theorem builtin_error_only_from_non_string_entry (data : value)
    (response : Response) (field_name : string) (b : builtin_error) :
  _handle_response_data data response field_name = Raise (Builtin b) →
  ∃ d x, data = PDict d
         ∧ dict_get "error" d = Some (PList [x])
         ∧ (∀ s, x ≠ PStr s)
         ∧ (b = TypeError ∨ b = AttributeError).
Proof.
  intros H.
  destruct (handle_outcome data response field_name)
    as [[v Hv] | [(e & He & Hr) | (d & x & b' & Hb & -> & Hd & Hx & Hc)]].
  - congruence.
  - rewrite He in H. injection H as ->. discriminate.
  - rewrite Hb in H. injection H as ->. by exists d, x.
Qed.

(** ** More lemmas on the builtins and the request *)

Lemma dict_set_idem (k : string) (v : value) (d : dict) :
  dict_set k v (dict_set k v d) = dict_set k v d.
Proof.
  induction d as [|[k' v'] d IH]; simpl.
  - by rewrite String.eqb_refl.
  - destruct (String.eqb k k') eqn:E; simpl; rewrite E; [done|].
    by rewrite IH.
Qed.

Lemma dict_set_absent (k : string) (v : value) (d : dict) :
  dict_get k d = None → dict_set k v d = (d ++ [(k, v)])%list.
Proof.
  induction d as [|[k' v'] d IH]; simpl; [done|].
  destruct (String.eqb k k'); [discriminate|].
  intros H. by rewrite IH.
Qed.

Lemma dict_set_present (k : string) (v v0 : value) (d : dict) :
  dict_get k d = Some v0 →
  map fst (dict_set k v d) = map fst d
  ∧ length (dict_set k v d) = length d.
Proof.
  induction d as [|[k' v'] d IH]; simpl; [discriminate|].
  destruct (String.eqb k k'); [done|].
  intros H. destruct (IH H) as [E1 E2]. simpl. by rewrite E1, E2.
Qed.

Lemma add_key_idem (self : USDAApi) (l : positive)
    (h : gmap positive dict) :
  add_key self l (add_key self l h) = add_key self l h.
Proof.
  apply map_eq. intros l'. unfold add_key.
  destruct (decide (l = l')) as [<- | Hne].
  - rewrite !lookup_alter_eq. destruct (h !! l) as [d|]; simpl; [|done].
    unfold dict_update. simpl. by rewrite dict_set_idem.
  - by rewrite !lookup_alter_ne.
Qed.

Lemma count_query_world (self : USDAApi) (query : Query) (w : world) :
  (count_query self query w).2 =
    (_api_request self "/get_counts/" (params query) "count" w).2.
Proof. unfold count_query. by destruct (_api_request _ _ _ _ _). Qed.

Lemma count_query_result (self : USDAApi) (query : Query) (w : world) :
  (count_query self query w).1 =
    (_api_request self "/get_counts/" (params query) "count" w).1
      ≫= py_int int_max_str_digits.
Proof. unfold count_query. by destruct (_api_request _ _ _ _ _). Qed.

Lemma before_first_without (c : ascii) (s : string) :
  after_first c s = None → before_first c s = s.
Proof.
  induction s as [|a r IH]; simpl; [done|].
  destruct (Ascii.eqb a c); [discriminate|]. intros H. by rewrite IH.
Qed.

Lemma digit_is_plain (c : ascii) (n : Z) :
  digit_value c = Some n →
  is_space c = false ∧ Ascii.eqb c "-" = false ∧ Ascii.eqb c "+" = false
  ∧ Ascii.eqb c "_" = false ∧ Ascii.eqb c "=" = false.
Proof.
  destruct c as [b0 b1 b2 b3 b4 b5 b6 b7].
  destruct b0, b1, b2, b3, b4, b5, b6, b7; try discriminate; done.
Qed.

Lemma scan_all_digits (s : string) (acc : Z) (n : nat) :
  all_digits s = true →
  scan_digits s false acc n
    = Some (decimal_value s acc, (n + String.length s)%nat, EmptyString).
Proof.
  revert acc n. induction s as [|c r IH]; simpl; intros acc n H.
  - by rewrite Nat.add_0_r.
  - destruct (digit_value c) as [v|]; [|discriminate].
    rewrite (IH _ _ H). do 3 f_equal. lia.
Qed.

(** A non-empty string of at most 640 digits is converted whatever the
    digit limit of the interpreter. *)
Lemma int_of_str_digits (s : string) :
  all_digits s = true → s ≠ EmptyString → (String.length s ≤ 640)%nat →
  int_of_str int_max_str_digits s = Some (decimal_value s 0).
Proof.
  intros Hd Hne Hlen. destruct s as [|c r]; [done|].
  unfold int_of_str.
  pose proof Hd as Hc. simpl in Hc.
  destruct (digit_value c) as [v|] eqn:Hv; [|discriminate].
  destruct (digit_is_plain _ _ Hv) as (Hs & Hm & Hp & Hu & _).
  simpl skip_spaces. rewrite Hs, Hm, Hp. simpl leading_underscore.
  rewrite Hu, (scan_all_digits _ _ _ Hd).
  unfold exceeds_digit_limit. simpl in Hlen |- *.
  destruct (Nat.ltb_spec 640 (S (String.length r))); [lia | done].
Qed.

Lemma digits_without_equals_sign (s : string) :
  all_digits s = true → after_first "=" s = None.
Proof.
  induction s as [|c r IH]; simpl; [done|].
  destruct (digit_value c) as [v|] eqn:Hv; [|discriminate].
  destruct (digit_is_plain _ _ Hv) as (_ & _ & _ & _ & ->). exact IH.
Qed.

(** ** Further properties of the requests *)

(** X4. Whatever [_api_request] raises tells what happened:
    [NetworkException] exactly when the transport failed; otherwise a
    response came back and the exception holds that very response, or it is
    the [TypeError] or [AttributeError] of an [error] entry that is not a
    string. *)
Theorem raised_exception_holds_the_response (self : USDAApi)
    (address : string) (l : positive) (field_name : string) (w : world)
    (e : exn) :
  (_api_request self address l field_name w).1 = Raise e →
  (e = NetworkException
   ∧ http_get (sent w) (outgoing self address l w) = None)
  ∨ ∃ resp, http_get (sent w) (outgoing self address l w) = Some resp
            ∧ (exn_response e = Some resp
               ∨ e = Builtin TypeError ∨ e = Builtin AttributeError).
Proof.
  unfold _api_request.
  destruct (http_get _ _) as [resp|]; simpl.
  - intros H. right. exists resp. split; [done|].
    destruct (json resp) as [data|]; simpl in H.
    + destruct (handle_outcome data resp field_name)
        as [[v Hv] | [(e' & He & Hr) | (d & x & b & Hb & _ & _ & _ & Hc)]].
      * congruence.
      * left. congruence.
      * right. rewrite Hb in H. injection H as <-.
        destruct Hc as [-> | ->]; auto.
    + injection H as <-. by left.
  - intros [= <-]. by left.
Qed.

(** X5. A failure of the transport becomes [NetworkException] and a body
    that is not JSON becomes [InvalidJson] with the response, whatever its
    status code; [count_query] hands both on without converting
    anything. *)
Theorem transport_and_decoding_failures (self : USDAApi) (query : Query)
    (address field_name : string) (l : positive) (w : world) :
  (http_get (sent w) (outgoing self address l w) = None →
     (_api_request self address l field_name w).1 = Raise NetworkException)
  ∧ (∀ resp, http_get (sent w) (outgoing self address l w) = Some resp →
       json resp = None →
       (_api_request self address l field_name w).1
         = Raise (InvalidJson resp))
  ∧ (http_get (sent w) (outgoing self "/get_counts/" (params query) w)
       = None →
     (count_query self query w).1 = Raise NetworkException)
  ∧ (∀ resp,
       http_get (sent w) (outgoing self "/get_counts/" (params query) w)
         = Some resp →
       json resp = None →
       (count_query self query w).1 = Raise (InvalidJson resp)).
Proof.
  rewrite count_query_result. unfold _api_request.
  split; [|split; [|split]].
  - by intros ->.
  - by intros resp -> ->.
  - by intros ->.
  - by intros resp -> ->.
Qed.

(** X6. Sending a Query again does not change its mapping any further:
    after [count_query], a [call_query] leaves every dictionary as it is,
    and the two requests on record go to the two endpoints with the same
    query string, the filters and the credential. *)
Theorem resend_leaves_params_unchanged (self : USDAApi) (query : Query)
    (w : world) (d : dict) :
  heap w !! params query = Some d →
  heap (call_query self query (count_query self query w).2).2
    = heap (count_query self query w).2
  ∧ sent (call_query self query (count_query self query w).2).2
    = (sent w ++
        [mkRequest "https://quickstats.nass.usda.gov/api/get_counts/"
           (dict_set "key" (PStr (key self)) d);
         mkRequest "https://quickstats.nass.usda.gov/api/api_GET/"
           (dict_set "key" (PStr (key self)) d)])%list.
Proof.
  intros Hl. unfold call_query.
  rewrite count_query_world, !api_request_world. simpl. split.
  - apply add_key_idem.
  - unfold outgoing. simpl.
    rewrite add_key_idem, (add_key_lookup _ _ _ _ Hl). simpl.
    by rewrite <- app_assoc.
Qed.

(** X7. Where the credential goes in the mapping: a mapping without an
    entry ["key"] gets it as its last entry; in a mapping that has one
    (a filter of that name), the value is replaced by the credential and
    the entries keep their number and order. *)
Theorem key_entry_in_params (self : USDAApi) (query : Query) (w : world)
    (d : dict) :
  heap w !! params query = Some d →
  (dict_get "key" d = None →
     heap (call_query self query w).2 !! params query
       = Some (d ++ [("key", PStr (key self))])%list)
  ∧ (∀ v0, dict_get "key" d = Some v0 →
       ∃ d', heap (call_query self query w).2 !! params query = Some d'
             ∧ map fst d' = map fst d
             ∧ length d' = length d
             ∧ dict_get "key" d' = Some (PStr (key self))).
Proof.
  intros Hl. unfold call_query. rewrite api_request_world. simpl.
  rewrite (add_key_lookup _ _ _ _ Hl). split.
  - intros Hk. by rewrite (dict_set_absent _ _ _ Hk).
  - intros v0 Hk. eexists. split; [reflexivity|].
    destruct (dict_set_present "key" (PStr (key self)) v0 d Hk) as [-> ->].
    by rewrite dict_get_set_eq.
Qed.

(** X8. [param_values] sends one request, to the parameter endpoint, whose
    query string is the parameter name and the credential; it changes no
    dictionary that existed before; and a decoded response is interpreted
    with the parameter name as the field. *)
Theorem param_values_request (self : USDAApi) (param : string) (w : world) :
  sent (param_values self param w).2
    = (sent w ++
        [mkRequest "https://quickstats.nass.usda.gov/api/get_param_values/"
           [("param", PStr param); ("key", PStr (key self))]])%list
  ∧ (∀ l d, heap w !! l = Some d →
            heap (param_values self param w).2 !! l = Some d)
  ∧ (∀ resp data,
       http_get (sent w)
         (mkRequest "https://quickstats.nass.usda.gov/api/get_param_values/"
            [("param", PStr param); ("key", PStr (key self))]) = Some resp →
       json resp = Some data →
       (param_values self param w).1
         = _handle_response_data data resp param).
Proof.
  unfold param_values.
  set (l := fresh (dom (heap w))).
  set (w1 := {| heap := <[l:=[("param", PStr param)]]> (heap w);
                sent := sent w |}).
  assert (Hout : outgoing self "/get_param_values/" l w1
            = mkRequest
                "https://quickstats.nass.usda.gov/api/get_param_values/"
                [("param", PStr param); ("key", PStr (key self))]).
  { unfold outgoing, add_key. simpl.
    by rewrite lookup_alter_eq, lookup_insert_eq. }
  split; [|split].
  - by rewrite api_request_world, Hout.
  - intros l' d Hl'. rewrite api_request_world. simpl.
    assert (l' ≠ l) as Hne.
    { intros ->. apply (is_fresh (dom (heap w))).
      apply elem_of_dom. by eexists. }
    rewrite add_key_lookup_ne by done. by rewrite lookup_insert_ne.
  - intros resp data Hr Hj.
    apply api_request_decoded; [|done]. by rewrite Hout.
Qed.

(** X9. The row limit by the number of [=] in the message: with none, the
    limit is absent; with exactly one, it is the integer parsed from all
    that follows it. *)
Theorem row_limit_by_equals_signs (d : dict) (message : string)
    (response : Response) (field_name : string) :
  dict_get "error" d = Some (PList [PStr message]) →
  startswith message "exceeds limit" = true →
  (after_first "=" message = None →
     _handle_response_data (PDict d) response field_name
       = Raise (ExceedsRowLimit None message response))
  ∧ (∀ rest, after_first "=" message = Some rest →
       after_first "=" rest = None →
       _handle_response_data (PDict d) response field_name
         = Raise (ExceedsRowLimit (int_of_str int_max_str_digits rest)
                    message response)).
Proof.
  intros Hd Hp. rewrite (handle_mapping_with_error_key _ _ _ _ Hd).
  rewrite raise_for_single_string.
  rewrite (lookup_class_exceeds_limit _ Hp), Hp. split.
  - by intros ->.
  - intros rest -> Hr. simpl. by rewrite (before_first_without _ _ Hr).
Qed.

(** X10. A send returns only when the transport answered with status 200
    and a JSON mapping that holds the field: [call_query] returns the
    [data] field as it is, [count_query] the integer that [int] makes of
    the [count] field. *)
Theorem send_returns_only_on_200 (self : USDAApi) (query : Query)
    (w : world) :
  (∀ v, (call_query self query w).1 = Return v →
     ∃ resp d,
       http_get (sent w) (outgoing self "/api_GET/" (params query) w)
         = Some resp
       ∧ json resp = Some (PDict d)
       ∧ status_code resp = 200
       ∧ dict_get "data" d = Some v)
  ∧ (∀ n, (count_query self query w).1 = Return n →
     ∃ resp d v,
       http_get (sent w) (outgoing self "/get_counts/" (params query) w)
         = Some resp
       ∧ json resp = Some (PDict d)
       ∧ status_code resp = 200
       ∧ dict_get "count" d = Some v
       ∧ py_int int_max_str_digits v = Return n).
Proof.
  assert (Hreq : ∀ address field_name v,
            (_api_request self address (params query) field_name w).1
              = Return v →
            ∃ resp d,
              http_get (sent w) (outgoing self address (params query) w)
                = Some resp
              ∧ json resp = Some (PDict d)
              ∧ status_code resp = 200
              ∧ dict_get field_name d = Some v).
  { intros address field_name v. unfold _api_request.
    destruct (http_get _ _) as [resp|]; [|discriminate].
    destruct (json resp) as [data|] eqn:Hj; [|discriminate]. simpl.
    intros H. apply handle_returns_exactly_when in H
      as (Hs & d & -> & Hf & _).
    by exists resp, d. }
  split.
  - intros v H. by apply Hreq.
  - intros n. rewrite count_query_result.
    destruct (_api_request _ _ _ _ _).1 as [v|e] eqn:Hv; [|discriminate].
    simpl. intros Hn.
    destruct (Hreq _ _ _ Hv) as (resp & d & ? & ? & ? & ?).
    by exists resp, d, v.
Qed.

(** X11. A count that the service writes as a string of one to 640
    decimal digits is returned as the number those digits write, whatever
    the digit limit of the interpreter. *)
Theorem count_query_reads_decimal_digits (self : USDAApi) (query : Query)
    (w : world) (response : Response) (d : dict) (digits : string) :
  http_get (sent w) (outgoing self "/get_counts/" (params query) w)
    = Some response →
  json response = Some (PDict d) →
  status_code response = 200 →
  dict_get "error" d = None →
  dict_get "count" d = Some (PStr digits) →
  all_digits digits = true →
  digits ≠ EmptyString →
  (String.length digits ≤ 640)%nat →
  (count_query self query w).1 = Return (decimal_value digits 0).
Proof.
  intros Hr Hj Hs He Hc Hd Hne Hlen.
  rewrite (count_query_converts _ _ _ _ _ _ Hr Hj Hs He Hc). simpl.
  by rewrite (int_of_str_digits _ Hd Hne Hlen).
Qed.

(** X12. For the message ["exceeds limit="] followed by one to 640 decimal
    digits the recorded limit is the number those digits write. *)
Theorem row_limit_reads_decimal_digits (d : dict) (digits : string)
    (response : Response) (field_name : string) :
  dict_get "error" d
    = Some (PList [PStr ("exceeds limit=" +:+ digits)]) →
  all_digits digits = true →
  digits ≠ EmptyString →
  (String.length digits ≤ 640)%nat →
  _handle_response_data (PDict d) response field_name
    = Raise (ExceedsRowLimit (Some (decimal_value digits 0))
               ("exceeds limit=" +:+ digits) response).
Proof.
  intros Hd Hdig Hne Hlen.
  rewrite (handle_mapping_with_error_key _ _ _ _ Hd).
  rewrite raise_for_single_string.
  assert (Hp : startswith ("exceeds limit=" +:+ digits) "exceeds limit"
               = true) by reflexivity.
  rewrite (lookup_class_exceeds_limit _ Hp), Hp. simpl.
  change (String.append EmptyString digits) with digits.
  rewrite (before_first_without _ _ (digits_without_equals_sign _ Hdig)).
  by rewrite (int_of_str_digits _ Hdig Hne Hlen).
Qed.

End Client.

(** ** The claims on concrete inputs *)

Lemma error_translation_precedes_status_check_witness :
  _handle_response_data 4300 unauthorized_body
    (respond 401 unauthorized_body) "data"
  = Raise (Unauthorized "unauthorized" (respond 401 unauthorized_body)).
Proof.
  destruct (error_translation_precedes_status_check 4300
              [("error", PList [PStr "unauthorized"])]
              (PList [PStr "unauthorized"])
              (respond 401 unauthorized_body) "data" eq_refl) as [_ H].
  exact (proj1 (H eq_refl)).
Defined.

Lemma row_limit_parsed_from_second_piece_witness :
  _handle_response_data 4300
    (PDict [("error", PList [PStr "exceeds limit=50000"])])
    (mkResponse 200 None) "data"
  = Raise (ExceedsRowLimit (Some 50000) "exceeds limit=50000"
             (mkResponse 200 None)).
Proof.
  exact (row_limit_parsed_from_second_piece 4300
           [("error", PList [PStr "exceeds limit=50000"])]
           "exceeds limit=50000" (mkResponse 200 None) "data"
           eq_refl eq_refl).
Defined.

(** C2 as stated fails on a message with a second [=]: what follows the
    first [=] in ["exceeds limit=5=6"] is ["5=6"], which is not an integer,
    yet the limit that is recorded is [5]. *)
Lemma row_limit_is_not_parsed_from_whole_suffix :
  startswith "exceeds limit=5=6" "exceeds limit" = true
  ∧ after_first "=" "exceeds limit=5=6" = Some "5=6"
  ∧ int_of_str 4300 "5=6" = None
  ∧ _raise_for_error_message 4300 (PList [PStr "exceeds limit=5=6"])
      (mkResponse 200 None)
    = Raise (ExceedsRowLimit (Some 5) "exceeds limit=5=6"
               (mkResponse 200 None))
  ∧ _raise_for_error_message 4300 (PList [PStr "exceeds limit=5=6"])
      (mkResponse 200 None)
    ≠ Raise (ExceedsRowLimit
               (after_first "=" "exceeds limit=5=6" ≫= int_of_str 4300)
               "exceeds limit=5=6" (mkResponse 200 None)).
Proof. vm_compute. repeat split; discriminate. Qed.

Lemma send_stores_key_in_params_witness :
  heap (call_query 4300 (answers (respond 200 rows_body)) sample_api
          sample_query sample_world).2 !! params sample_query
  = Some [("year", PInt 2016); ("key", PStr "SECRET")].
Proof.
  destruct (send_stores_key_in_params 4300
              (answers (respond 200 rows_body)) sample_api sample_query
              sample_world [("year", PInt 2016)] eq_refl) as [_ H].
  exact (proj1 (H _ (or_introl eq_refl))).
Defined.

(** C3 as stated fails: after one successful [call_query], and after one
    [count_query], the mapping of the Query is no longer what it was and
    holds the credential. *)
Lemma send_mutates_params :
  heap sample_world !! params sample_query = Some [("year", PInt 2016)]
  ∧ (call_query 4300 (answers (respond 200 rows_body)) sample_api
       sample_query sample_world).1 = Return (PList [])
  ∧ heap (call_query 4300 (answers (respond 200 rows_body)) sample_api
            sample_query sample_world).2 !! params sample_query
    = Some [("year", PInt 2016); ("key", PStr "SECRET")]
  ∧ heap (count_query 4300 (answers (respond 200 (count_body (PInt 7))))
            sample_api sample_query sample_world).2 !! params sample_query
    = Some [("year", PInt 2016); ("key", PStr "SECRET")]
  ∧ heap (call_query 4300 (answers (respond 200 rows_body)) sample_api
            sample_query sample_world).2 !! params sample_query
    ≠ heap sample_world !! params sample_query.
Proof. vm_compute. repeat split; discriminate. Qed.

Lemma single_message_dispatch_witness :
  _handle_response_data 4300
    (PDict [("error", PList [PStr "Unauthorized"])])
    (mkResponse 401 None) "data"
  = Raise (ApiException "Unauthorized" (mkResponse 401 None)).
Proof.
  destruct (single_message_dispatch 4300
              [("error", PList [PStr "Unauthorized"])] "Unauthorized"
              (mkResponse 401 None) "data" eq_refl) as (_ & _ & _ & H).
  apply H; [discriminate | discriminate | discriminate | reflexivity].
Defined.

Lemma several_errors_raise_exception_list_witness :
  _handle_response_data 4300 two_errors_body
    (respond 200 two_errors_body) "data"
  = Raise (ExceptionList [PStr "a"; PStr "b"] (respond 200 two_errors_body)).
Proof.
  apply (several_errors_raise_exception_list 4300
           [("error", PList [PStr "a"; PStr "b"])] [PStr "a"; PStr "b"]).
  - reflexivity.
  - simpl. lia.
Defined.

Lemma no_error_key_status_then_field_witness :
  _handle_response_data 4300 (PDict []) (respond 500 (PDict [])) "data"
    = Raise (NassException (respond 500 (PDict [])))
  ∧ _handle_response_data 4300 (PDict []) (respond 200 (PDict [])) "data"
    = Raise (UnexpectedResponseData (PDict []) (respond 200 (PDict []))).
Proof.
  split.
  - destruct (no_error_key_status_then_field 4300 (PDict [])
                (respond 500 (PDict [])) "data" eq_refl) as [H _].
    apply H. simpl. lia.
  - destruct (no_error_key_status_then_field 4300 (PDict [])
                (respond 200 (PDict [])) "data" eq_refl) as [_ H].
    apply H; reflexivity.
Defined.

Lemma count_query_returns_integer_witness :
  (count_query 4300 (answers (respond 200 (count_body (PStr "141811"))))
     sample_api sample_query sample_world).1 = Return 141811.
Proof.
  destruct (count_query_returns_integer 4300
              (answers (respond 200 (count_body (PStr "141811"))))
              sample_api sample_query sample_world
              (respond 200 (count_body (PStr "141811")))
              [("count", PStr "141811")]
              eq_refl eq_refl eq_refl eq_refl) as [H _].
  exact (H "141811" 141811 eq_refl eq_refl).
Defined.

Lemma empty_error_list_falls_through_witness :
  _handle_response_data 4300
    (PDict [("error", PList []); ("data", PList [PInt 1])])
    (mkResponse 200 None) "data"
  = Return (PList [PInt 1]).
Proof.
  destruct (empty_error_list_falls_through 4300
              [("error", PList []); ("data", PList [PInt 1])]
              (mkResponse 200 None) "data" eq_refl) as (_ & _ & H).
  apply H; reflexivity.
Defined.

Lemma non_list_error_value_is_ignored_witness :
  _handle_response_data 4300
    (PDict [("error", PStr "unauthorized"); ("data", PList [PInt 1])])
    (mkResponse 200 None) "data"
  = Return (PList [PInt 1]).
Proof.
  destruct (non_list_error_value_is_ignored 4300
              [("error", PStr "unauthorized"); ("data", PList [PInt 1])]
              (PStr "unauthorized") (mkResponse 200 None) "data" eq_refl)
    as (_ & _ & H).
  - intros l. discriminate.
  - apply H; reflexivity.
Defined.

Lemma count_query_conversion_error_witness :
  (count_query 4300 (answers (respond 200 (count_body (PStr "abc"))))
     sample_api sample_query sample_world).1 = Raise (Builtin ValueError).
Proof.
  destruct (count_query_conversion_error 4300
              (answers (respond 200 (count_body (PStr "abc"))))
              sample_api sample_query sample_world
              (respond 200 (count_body (PStr "abc")))
              [("count", PStr "abc")] (PStr "abc")
              eq_refl eq_refl eq_refl eq_refl eq_refl) as (_ & H & _).
  exact (H "abc" eq_refl eq_refl).
Defined.

(** C10 as stated fails on a value that is not a string: for the body
    [{"count": null}] the conversion raises [TypeError], not
    [ValueError]. *)
Lemma count_query_null_raises_type_error :
  (∀ n, py_int 4300 PNone ≠ Return n)
  ∧ (count_query 4300 (answers (respond 200 (count_body PNone)))
       sample_api sample_query sample_world).1 = Raise (Builtin TypeError)
  ∧ (count_query 4300 (answers (respond 200 (count_body PNone)))
       sample_api sample_query sample_world).1 ≠ Raise (Builtin ValueError).
Proof. vm_compute. repeat split; discriminate. Qed.

(** ** Further checks of the model *)

Example limit_unknown_when_not_a_number :
  _raise_for_error_message 4300 (PList [PStr "exceeds limit=abc"])
    (mkResponse 200 None)
  = Raise (ExceedsRowLimit None "exceeds limit=abc" (mkResponse 200 None)).
Proof. reflexivity. Qed.

Example limit_unknown_without_equals_sign :
  _raise_for_error_message 4300 (PList [PStr "exceeds limit"])
    (mkResponse 200 None)
  = Raise (ExceedsRowLimit None "exceeds limit" (mkResponse 200 None)).
Proof. reflexivity. Qed.

(** An entry that is not a string is not translated: the membership test
    or the [startswith] call fails first. *)
Example entry_not_a_string :
  _raise_for_error_message 4300 (PList [PInt 1]) (mkResponse 200 None)
    = Raise (Builtin AttributeError)
  ∧ _raise_for_error_message 4300 (PList [PList []]) (mkResponse 200 None)
    = Raise (Builtin TypeError).
Proof. split; reflexivity. Qed.

Example int_of_str_samples :
  int_of_str 4300 " 50_000 " = Some 50000
  ∧ int_of_str 4300 "-7" = Some (-7)
  ∧ int_of_str 4300 "0005" = Some 5
  ∧ int_of_str 4300 "5__0" = None
  ∧ int_of_str 4300 "5 0" = None
  ∧ int_of_str 4300 "" = None.
Proof. repeat split; reflexivity. Qed.

Example param_values_uses_a_new_dictionary :
  heap (param_values 4300 (answers (respond 200 (PDict [])))
          sample_api "source_desc" sample_world).2 !! params sample_query
  = heap sample_world !! params sample_query.
Proof. vm_compute. reflexivity. Qed.

(** ** The further properties on concrete inputs *)

Lemma builtin_error_only_from_non_string_entry_witness :
  ∃ d x, PDict [("error", PList [PList []])] = PDict d
         ∧ dict_get "error" d = Some (PList [x])
         ∧ (∀ s, x ≠ PStr s)
         ∧ (TypeError = TypeError ∨ TypeError = AttributeError).
Proof.
  exact (builtin_error_only_from_non_string_entry 4300
           (PDict [("error", PList [PList []])]) (mkResponse 200 None)
           "data" TypeError eq_refl).
Defined.

Lemma raised_exception_holds_the_response_witness :
  exn_response
    (Unauthorized "unauthorized" (respond 401 unauthorized_body))
  = Some (respond 401 unauthorized_body).
Proof.
  destruct (raised_exception_holds_the_response 4300
              (answers (respond 401 unauthorized_body)) sample_api
              "/api_GET/" 1%positive "data" sample_world
              (Unauthorized "unauthorized" (respond 401 unauthorized_body))
              eq_refl) as [[H _] | (resp & Hr & [H | [H | H]])].
  - discriminate H.
  - injection Hr as <-. exact H.
  - discriminate H.
  - discriminate H.
Defined.

Lemma transport_and_decoding_failures_witness :
  (count_query 4300 no_network sample_api sample_query sample_world).1
    = Raise NetworkException
  ∧ (count_query 4300 (answers (mkResponse 500 None)) sample_api
       sample_query sample_world).1
    = Raise (InvalidJson (mkResponse 500 None)).
Proof.
  split.
  - destruct (transport_and_decoding_failures 4300 no_network sample_api
                sample_query "/api_GET/" "data" 1%positive sample_world)
      as (_ & _ & H & _).
    exact (H eq_refl).
  - destruct (transport_and_decoding_failures 4300
                (answers (mkResponse 500 None)) sample_api
                sample_query "/api_GET/" "data" 1%positive sample_world)
      as (_ & _ & _ & H).
    exact (H _ eq_refl eq_refl).
Defined.

Lemma resend_leaves_params_unchanged_witness :
  sent (call_query 4300 (answers (respond 200 rows_body)) sample_api
          sample_query
          (count_query 4300 (answers (respond 200 rows_body)) sample_api
             sample_query sample_world).2).2
  = [mkRequest "https://quickstats.nass.usda.gov/api/get_counts/"
       [("year", PInt 2016); ("key", PStr "SECRET")];
     mkRequest "https://quickstats.nass.usda.gov/api/api_GET/"
       [("year", PInt 2016); ("key", PStr "SECRET")]].
Proof.
  exact (proj2 (resend_leaves_params_unchanged 4300
                  (answers (respond 200 rows_body)) sample_api sample_query
                  sample_world [("year", PInt 2016)] eq_refl)).
Defined.

Lemma key_entry_in_params_witness :
  heap (call_query 4300 no_network sample_api sample_query
          sample_world).2 !! params sample_query
    = Some [("year", PInt 2016); ("key", PStr "SECRET")]
  ∧ ∃ d', heap (call_query 4300 no_network sample_api sample_query
                  keyed_world).2 !! params sample_query = Some d'
          ∧ map fst d' = ["key"; "year"]
          ∧ length d' = 2%nat
          ∧ dict_get "key" d' = Some (PStr "SECRET").
Proof.
  split.
  - destruct (key_entry_in_params 4300 no_network sample_api sample_query
                sample_world [("year", PInt 2016)] eq_refl) as [H _].
    exact (H eq_refl).
  - destruct (key_entry_in_params 4300 no_network sample_api sample_query
                keyed_world [("key", PStr "mine"); ("year", PInt 2016)]
                eq_refl) as [_ H].
    exact (H (PStr "mine") eq_refl).
Defined.

Lemma param_values_request_witness :
  (param_values 4300 (answers (respond 200 source_desc_body)) sample_api
     "source_desc" sample_world).1
  = Return (PList [PStr "CENSUS"; PStr "SURVEY"]).
Proof.
  destruct (param_values_request 4300
              (answers (respond 200 source_desc_body)) sample_api
              "source_desc" sample_world) as (_ & _ & H).
  exact (H (respond 200 source_desc_body) source_desc_body
           eq_refl eq_refl).
Defined.

Lemma row_limit_by_equals_signs_witness :
  _handle_response_data 4300 (PDict [("error", PList [PStr "exceeds limit"])])
    (mkResponse 200 None) "data"
    = Raise (ExceedsRowLimit None "exceeds limit" (mkResponse 200 None))
  ∧ _handle_response_data 4300
      (PDict [("error", PList [PStr "exceeds limit= 50_000 "])])
      (mkResponse 200 None) "data"
    = Raise (ExceedsRowLimit (Some 50000) "exceeds limit= 50_000 "
               (mkResponse 200 None)).
Proof.
  split.
  - destruct (row_limit_by_equals_signs 4300
                [("error", PList [PStr "exceeds limit"])] "exceeds limit"
                (mkResponse 200 None) "data" eq_refl eq_refl) as [H _].
    exact (H eq_refl).
  - destruct (row_limit_by_equals_signs 4300
                [("error", PList [PStr "exceeds limit= 50_000 "])]
                "exceeds limit= 50_000 "
                (mkResponse 200 None) "data" eq_refl eq_refl) as [_ H].
    exact (H " 50_000 " eq_refl eq_refl).
Defined.

Lemma send_returns_only_on_200_witness :
  ∃ resp d v,
    answers (respond 200 (count_body (PStr "141811"))) (sent sample_world)
      (outgoing sample_api "/get_counts/" (params sample_query)
         sample_world) = Some resp
    ∧ json resp = Some (PDict d)
    ∧ status_code resp = 200
    ∧ dict_get "count" d = Some v
    ∧ py_int 4300 v = Return 141811.
Proof.
  destruct (send_returns_only_on_200 4300
              (answers (respond 200 (count_body (PStr "141811"))))
              sample_api sample_query sample_world) as [_ H].
  exact (H 141811 eq_refl).
Defined.

Lemma count_query_reads_decimal_digits_witness :
  (count_query 0 (answers (respond 200 (count_body (PStr "0141811"))))
     sample_api sample_query sample_world).1 = Return 141811.
Proof.
  apply (count_query_reads_decimal_digits 0
           (answers (respond 200 (count_body (PStr "0141811"))))
           sample_api sample_query sample_world
           (respond 200 (count_body (PStr "0141811")))
           [("count", PStr "0141811")] "0141811");
    try reflexivity.
  - discriminate.
  - simpl. lia.
Defined.

Lemma row_limit_reads_decimal_digits_witness :
  _handle_response_data 4300
    (PDict [("error", PList [PStr "exceeds limit=50000"])])
    (mkResponse 413 None) "data"
  = Raise (ExceedsRowLimit (Some 50000) "exceeds limit=50000"
             (mkResponse 413 None)).
Proof.
  apply (row_limit_reads_decimal_digits 4300
           [("error", PList [PStr "exceeds limit=50000"])] "50000"
           (mkResponse 413 None) "data"); try reflexivity.
  - discriminate.
  - simpl. lia.
Defined.
